(** * Events-to-client reporter (src/chrome/client/eventsToClientReporter.ts)

    A shallow embedding of [EventsToClientReporter]: the five [send*]
    operations, run against a JavaScript-style store of mutable objects, the
    session's wire log and the shared handle registry.  The converters, the
    stack-trace printer and the thread identifier are collaborators of the
    class; their code is not part of the sources, so they are the fields of
    an interface ([Collaborators]) over which every theorem about the
    reporter is generic. *)

From Stdlib Require Import ZArith.
From stdpp Require Import base option list strings gmap.

Local Open Scope Z_scope.
Local Open Scope string_scope.
Local Open Scope list_scope.

(** ** Domain types

    The internal entities and the client-shaped objects the reporter passes
    around without looking inside them. *)

Class Domain : Type := {
  (** '../internal/sources/loadedSource' *)
  ILoadedSource : Type;
  (** '../internal/locations/location' *)
  LocationInLoadedSource : Type;
  (** '../internal/breakpoints/bpRecipeStatus' *)
  IBPRecipeStatus : Type;
  (** '../internal/formattedExceptionParser' *)
  IFormattedExceptionLineDescription : Type;
  (** CDTP.Runtime.RemoteObject *)
  RemoteObject : Type;
  (** DebugProtocol.Source and DebugProtocol.Breakpoint *)
  Source : Type;
  Breakpoint : Type;
  (** the state held by a './handlesRegistry' HandlesRegistry *)
  HandlesRegistry : Type
}.

(** ** Runtime values, objects and the store *)

Definition addr := nat.

(** A JavaScript value.  Mutable objects live in the store and are denoted
    by their address; domain entities are carried as they are.  A variables
    reference is a handle, an integer. *)
Inductive value `{Domain} : Type :=
  | VUndefined
  | VNumber (n : Z)
  | VString (s : string)
  | VRef (a : addr)
  | VLoadedSource (s : ILoadedSource)
  | VLocation (l : LocationInLoadedSource)
  | VBPRecipeStatus (s : IBPRecipeStatus)
  | VStackTrace (t : list IFormattedExceptionLineDescription)
  | VRemoteObject (r : RemoteObject)
  | VSource (s : Source)
  | VBreakpoint (b : Breakpoint).

(** The truthiness tested by [if (x)]. *)
Definition truthy `{Domain} (v : value) : bool :=
  match v with
  | VUndefined => false
  | VNumber n => negb (n =? 0)%Z
  | VString s => negb (String.eqb s "")
  | _ => true
  end.

(** An object is a finite map from property names to values. *)
Abbreviation object := (gmap string value).

(** What the session puts on the wire for an event object: its kind (the
    [event] property) and the properties of its body at the time of the
    dispatch. *)
Record ProtocolEvent `{Domain} : Type := {
  event : value;
  body : object
}.

(** The world a reporter runs in: the store ([heap], an object's address is
    its index; objects are never freed), the state of the handle registry
    shared by the converters, and what the session has sent so far. *)
Record World `{Domain} : Type := {
  heap : list object;
  handles : HandlesRegistry;
  sent : list ProtocolEvent
}.

Definition set_heap `{Domain} (h : list object) (w : World) : World :=
  {| heap := h; handles := handles w; sent := sent w |}.
Definition set_handles `{Domain} (r : HandlesRegistry) (w : World) : World :=
  {| heap := heap w; handles := r; sent := sent w |}.
Definition set_sent `{Domain} (s : list ProtocolEvent) (w : World) : World :=
  {| heap := heap w; handles := handles w; sent := s |}.

(** ** Synchronous code: state and exceptions *)

Inductive completion `{Domain} (A : Type) : Type :=
  | Normal (a : A)
  | Throw (e : value).
Arguments Normal {_ _} a.
Arguments Throw {_ _} e.

Definition M `{Domain} (A : Type) : Type := World -> completion A * World.

#[global] Instance M_ret `{Domain} : MRet M :=
  fun A a w => (Normal a, w).
#[global] Instance M_bind `{Domain} : MBind M :=
  fun A B f m w =>
    match m w with
    | (Normal a, w') => f a w'
    | (Throw e, w') => (Throw e, w')
    end.

(** ** Asynchronous code

    The promise an [async] function returns, once settled.  The reporter is
    driven by one cooperative control flow; an awaited conversion is run to
    its settlement before the operation goes on. *)
Inductive settled `{Domain} (A : Type) : Type :=
  | Fulfilled (a : A)
  | Rejected (e : value).
Arguments Fulfilled {_ _} a.
Arguments Rejected {_ _} e.

Definition Async `{Domain} (A : Type) : Type := World -> settled A * World.

(** [async] body: a normal completion fulfils the promise, an exception
    rejects it. *)
Definition async `{Domain} {A} (m : M A) : Async A :=
  fun w =>
    match m w with
    | (Normal a, w') => (Fulfilled a, w')
    | (Throw e, w') => (Rejected e, w')
    end.

(** [await p]: the value of a fulfilled promise, the reason of a rejected
    one thrown. *)
Definition await `{Domain} {A} (p : Async A) : M A :=
  fun w =>
    match p w with
    | (Fulfilled a, w') => (Normal a, w')
    | (Rejected e, w') => (Throw e, w')
    end.

(** ** Store operations *)

(** [{ ... }] or [new C(...)]: a fresh object at the next address. *)
Definition alloc `{Domain} (o : object) : M addr :=
  fun w => (Normal (length (heap w)), set_heap (heap w ++ [o]) w).

Definition field `{Domain} (h : list object) (a : addr) (f : string) : value :=
  default VUndefined (h !! a ≫= (.!! f)).

(** [a.f] *)
Definition getField `{Domain} (a : addr) (f : string) : M value :=
  fun w => (Normal (field (heap w) a f), w).

(** [a.f = v] *)
Definition setField `{Domain} (a : addr) (f : string) (v : value) : M unit :=
  fun w => (Normal (), set_heap (alter (<[f := v]>) a (heap w)) w).

Definition throw `{Domain} {A} (e : value) : M A :=
  fun w => (Throw e, w).

(** Writing a property of something that is not an object of the store is a
    TypeError (class bodies and modules are strict code). *)
Definition setProperty `{Domain} (target : value) (f : string) (v : value) : M unit :=
  match target with
  | VRef a => setField a f v
  | _ => throw (VString "TypeError")
  end.

(** ** The request shapes (lines 25-51 of the source)

    Each interface is a record; [repr] is the object a request of that
    shape is in the store: an optional property that is not supplied is
    absent. *)

Definition optional `{Domain} (f : string) (v : option value) (o : object) : object :=
  match v with
  | Some x => <[f := x]> o
  | None => o
  end.

(** What reading an optional property gives. *)
Definition optionalValue `{Domain} {A} (inj : A -> value) (o : option A) : value :=
  match o with
  | Some a => inj a
  | None => VUndefined
  end.

Module IOutputParameters.
Record t `{Domain} : Type := {
  output : string;
  category : string;
  variablesReference : option Z;
  location : option LocationInLoadedSource
}.
Definition repr `{Domain} (p : t) : object :=
  optional "location" (VLocation <$> location p)
    (optional "variablesReference" (VNumber <$> variablesReference p)
       (<["category" := VString (category p)]>
          {["output" := VString (output p)]})).
End IOutputParameters.

Inductive LoadedSourceReason : Type :=
  | reason_new
  | reason_changed
  | reason_removed.

Definition LoadedSourceReason_string (r : LoadedSourceReason) : string :=
  match r with
  | reason_new => "new"
  | reason_changed => "changed"
  | reason_removed => "removed"
  end.

Module ISourceWasLoadedParameters.
Record t `{Domain} : Type := {
  reason : LoadedSourceReason;
  source : ILoadedSource
}.
Definition repr `{Domain} (p : t) : object :=
  <["source" := VLoadedSource (source p)]>
    {["reason" := VString (LoadedSourceReason_string (reason p))]}.
End ISourceWasLoadedParameters.

Module IBPStatusChangedParameters.
Record t `{Domain} : Type := {
  reason : string;
  bpRecipeStatus : IBPRecipeStatus
}.
Definition repr `{Domain} (p : t) : object :=
  <["bpRecipeStatus" := VBPRecipeStatus (bpRecipeStatus p)]>
    {["reason" := VString (reason p)]}.
End IBPStatusChangedParameters.

Module IExceptionThrownParameters.
Record t `{Domain} : Type := {
  exceptionStackTrace : list IFormattedExceptionLineDescription;
  category : string;
  location : option LocationInLoadedSource
}.
Definition repr `{Domain} (p : t) : object :=
  optional "location" (VLocation <$> location p)
    (<["category" := VString (category p)]>
       {["exceptionStackTrace" := VStackTrace (exceptionStackTrace p)]}).
End IExceptionThrownParameters.

(** [ReasonType] ('../stoppedEvent') is a union of string literals. *)
Module IDebuggeeIsStoppedParameters.
Record t `{Domain} : Type := {
  reason : string;
  exception : option RemoteObject
}.
Definition repr `{Domain} (p : t) : object :=
  optional "exception" (VRemoteObject <$> exception p)
    {["reason" := VString (reason p)]}.
End IDebuggeeIsStoppedParameters.

(** ** Event classes of vscode-debugadapter *)

(** [new Event(event)] followed by the subclass's [this.body = { ... }]. *)
Definition new_Event `{Domain} (kind : string) (b : object) : M addr :=
  this ← alloc (<["event" := VString kind]>
                  (<["type" := VString "event"]> {["seq" := VNumber 0]}));
  bodyobj ← alloc b;
  setField this "body" (VRef bodyobj);;
  mret this.

(** [new OutputEvent(output, category)]; the constructor's [category]
    parameter defaults to 'console' when it is undefined. *)
Definition new_OutputEvent `{Domain} (output category : value) : M addr :=
  let category :=
    match category with VUndefined => VString "console" | c => c end in
  new_Event "output" (<["output" := output]> {["category" := category]}).

(** [new LoadedSourceEvent(reason, source)] *)
Definition new_LoadedSourceEvent `{Domain} (reason source : value) : M addr :=
  new_Event "loadedSource" (<["source" := source]> {["reason" := reason]}).

(** [new BreakpointEvent(reason, breakpoint)] *)
Definition new_BreakpointEvent `{Domain} (reason breakpoint : value) : M addr :=
  new_Event "breakpoint" (<["breakpoint" := breakpoint]> {["reason" := reason]}).

(** Modelled from the spec: the constructor of [StoppedEvent2]
    ('../stoppedEvent', not part of the sources).  The spec has it wrap
    [reason] and [exception] directly into a Stopped event tagged with the
    thread identifier it is given; the exception is carried when there is
    one. *)
Definition StoppedEvent2_body `{Domain} (reason : value) (threadId : Z) (exception : value) : object :=
  let b := <["threadId" := VNumber threadId]> {["reason" := reason]} in
  match exception with
  | VUndefined => b
  | e => <["exception" := e]> b
  end.

Definition new_StoppedEvent2 `{Domain} (reason : value) (threadId : Z) (exception : value) : M addr :=
  new_Event "stopped" (StoppedEvent2_body reason threadId exception).

(** ** The session

    Modelled from the spec: [ISession.sendEvent] ('./session', not part of
    the sources) accepts a fully built protocol event and transmits it; it
    returns nothing and does not fail observably.  Transmitting records the
    event as it is at that moment. *)
Definition snapshot `{Domain} (h : list object) (e : addr) : ProtocolEvent :=
  {| event := field h e "event";
     body := match field h e "body" with
             | VRef b => default ∅ (h !! b)
             | _ => ∅
             end |}.

Definition sendEvent `{Domain} (e : addr) : M unit :=
  fun w => (Normal (), set_sent (sent w ++ [snapshot (heap w) e]) w).

(** ** The collaborators of the reporter

    What the constructor (lines 67-76) wires into the reporter, apart from
    the session.  The converters are built from the handle registry (and
    the line/column transformer) alone: they read and update the registry,
    and have no access to the session.  A conversion either succeeds or
    fails with a reason. *)
Class Collaborators `{Domain} : Type := {
  (** ChromeDebugLogic.THREAD_ID *)
  THREAD_ID : Z;
  (** ExceptionStackTracePrinter.toStackTraceString: pure, never fails *)
  toStackTraceString : value -> string;
  (** the client-shaped projection of a location computed by
      LocationInSourceToClientConverter: source, line and column;
      synchronous *)
  clientLocation : value -> HandlesRegistry -> completion (value * Z * Z) * HandlesRegistry;
  (** SourceToClientConverter.toSource: returns a promise (awaited in an
      async body, where a throw is a rejection as well) *)
  toSource : value -> HandlesRegistry -> settled value * HandlesRegistry;
  (** BPRecipieStatusToClientConverter.toBreakpoint: returns a promise *)
  toBreakpoint : value -> HandlesRegistry -> settled value * HandlesRegistry
}.

(** A collaborator's call runs on the registry the reporter shares with it. *)
Definition onHandles `{Domain} {R : Type} (f : HandlesRegistry -> R * HandlesRegistry) : World -> R * World :=
  fun w => let (r, g) := f (handles w) in (r, set_handles g w).

Section Reporter.
Context `{Collaborators}.

(** Modelled from the spec: [toLocationInSource(location, objectToUpdate)]
    of LocationInSourceToClientConverter (not part of the sources).  It
    obtains the client-shaped projection of the location and attaches its
    source, line and column to the object it is given, in place, without
    suspending. *)
Definition toLocationInSource (location objectToUpdate : value) : M unit :=
  '(source, line, column) ← onHandles (clientLocation location);
  setProperty objectToUpdate "source" source;;
  setProperty objectToUpdate "line" (VNumber line);;
  setProperty objectToUpdate "column" (VNumber column).

(** Lines 78-90. *)
Definition sendOutput (params : addr) : M unit :=
  output ← getField params "output";
  category ← getField params "category";
  event ← new_OutputEvent output category;
  variablesReference ← getField params "variablesReference";
  (if truthy variablesReference then
     body ← getField event "body";
     variablesReference ← getField params "variablesReference";
     setProperty body "variablesReference" variablesReference
   else mret ());;
  location ← getField params "location";
  (if truthy location then
     location ← getField params "location";
     body ← getField event "body";
     toLocationInSource location body
   else mret ());;
  sendEvent event.

(** Lines 92-97. *)
Definition sendSourceWasLoaded (params : addr) : Async unit :=
  async (
    source ← getField params "source";
    clientSource ← await (onHandles (toSource source));
    reason ← getField params "reason";
    event ← new_LoadedSourceEvent reason clientSource;
    sendEvent event).

(** Lines 99-104. *)
Definition sendBPStatusChanged (params : addr) : Async unit :=
  async (
    bpRecipeStatus ← getField params "bpRecipeStatus";
    breakpointStatus ← await (onHandles (toBreakpoint bpRecipeStatus));
    reason ← getField params "reason";
    event ← new_BreakpointEvent reason breakpointStatus;
    sendEvent event).

(** Lines 106-112. *)
Definition sendExceptionThrown (params : addr) : Async unit :=
  async (
    exceptionStackTrace ← getField params "exceptionStackTrace";
    category ← getField params "category";
    location ← getField params "location";
    literal ← alloc (<["location" := location]>
                       (<["category" := category]>
                          {["output" := VString (toStackTraceString exceptionStackTrace)]}));
    sendOutput literal).

(** Lines 114-116. *)
Definition sendDebuggeeIsStopped (params : addr) : Async unit :=
  async (
    reason ← getField params "reason";
    exception ← getField params "exception";
    event ← new_StoppedEvent2 reason THREAD_ID exception;
    sendEvent event).

End Reporter.

(** ** The interface of the reporter (lines 53-59)

    [sendOutput] is declared to return [void]; the other four operations
    return a promise.  What a caller gets back from a call: *)
Inductive CallResult `{Domain} : Type :=
  | Returned
  | Threw (e : value)
  | Promise (p : settled unit).

Inductive Operation : Type :=
  | op_sendOutput
  | op_sendSourceWasLoaded
  | op_sendBPStatusChanged
  | op_sendExceptionThrown
  | op_sendDebuggeeIsStopped.

Definition callSync `{Domain} (m : M unit) : World -> CallResult * World :=
  fun w =>
    match m w with
    | (Normal _, w') => (Returned, w')
    | (Throw e, w') => (Threw e, w')
    end.

Definition callAsync `{Domain} (a : Async unit) : World -> CallResult * World :=
  fun w => let (p, w') := a w in (Promise p, w').

Definition invoke `{Collaborators} (op : Operation) (params : addr) : World -> CallResult * World :=
  match op with
  | op_sendOutput => callSync (sendOutput params)
  | op_sendSourceWasLoaded => callAsync (sendSourceWasLoaded params)
  | op_sendBPStatusChanged => callAsync (sendBPStatusChanged params)
  | op_sendExceptionThrown => callAsync (sendExceptionThrown params)
  | op_sendDebuggeeIsStopped => callAsync (sendDebuggeeIsStopped params)
  end.

(** A failed pending operation: the caller holds a promise, and it is
    rejected. *)
Definition failedPendingOperation `{Domain} (r : CallResult) : Prop :=
  exists e, r = Promise (Rejected e).

(** ** Calls seen from the caller

    What the properties about whole calls are stated with: whether a call
    succeeded, the kind of event an operation builds (lines 79, 94, 101, 107
    and 115), the properties of the request it reads, the registry its one
    conversion leaves, and a caller issuing calls one after the other. *)

Definition succeeded `{Domain} (r : CallResult) : bool :=
  match r with
  | Returned => true
  | Promise (Fulfilled _) => true
  | _ => false
  end.

Definition eventKind (op : Operation) : string :=
  match op with
  | op_sendOutput => "output"
  | op_sendSourceWasLoaded => "loadedSource"
  | op_sendBPStatusChanged => "breakpoint"
  | op_sendExceptionThrown => "output"
  | op_sendDebuggeeIsStopped => "stopped"
  end.

Definition propertiesRead (op : Operation) : list string :=
  match op with
  | op_sendOutput => ["output"; "category"; "variablesReference"; "location"]
  | op_sendSourceWasLoaded => ["source"; "reason"]
  | op_sendBPStatusChanged => ["bpRecipeStatus"; "reason"]
  | op_sendExceptionThrown => ["exceptionStackTrace"; "category"; "location"]
  | op_sendDebuggeeIsStopped => ["reason"; "exception"]
  end.

(** The registry after the conversion an operation runs on the request at
    [p]: the location conversion when the location is truthy (lines 85-87),
    the source conversion (line 93), the status conversion (line 100), none
    for a stopped debuggee. *)
Definition registryAfter `{Collaborators} (op : Operation) (h : list object) (p : addr)
    (r : HandlesRegistry) : HandlesRegistry :=
  match op with
  | op_sendOutput | op_sendExceptionThrown =>
      if truthy (field h p "location")
      then (clientLocation (field h p "location") r).2
      else r
  | op_sendSourceWasLoaded => (toSource (field h p "source") r).2
  | op_sendBPStatusChanged => (toBreakpoint (field h p "bpRecipeStatus") r).2
  | op_sendDebuggeeIsStopped => r
  end.

(** What the caller gets back, read off the operation's one conversion: the
    converter's failure, thrown by [sendOutput] and as the rejection of the
    promise of the others, and success otherwise. *)
Definition resultAfter `{Collaborators} (op : Operation) (h : list object) (p : addr)
    (r : HandlesRegistry) : CallResult :=
  match op with
  | op_sendOutput =>
      if truthy (field h p "location")
      then match (clientLocation (field h p "location") r).1 with
           | Normal _ => Returned
           | Throw e => Threw e
           end
      else Returned
  | op_sendExceptionThrown =>
      if truthy (field h p "location")
      then match (clientLocation (field h p "location") r).1 with
           | Normal _ => Promise (Fulfilled ())
           | Throw e => Promise (Rejected e)
           end
      else Promise (Fulfilled ())
  | op_sendSourceWasLoaded =>
      match (toSource (field h p "source") r).1 with
      | Fulfilled _ => Promise (Fulfilled ())
      | Rejected e => Promise (Rejected e)
      end
  | op_sendBPStatusChanged =>
      match (toBreakpoint (field h p "bpRecipeStatus") r).1 with
      | Fulfilled _ => Promise (Fulfilled ())
      | Rejected e => Promise (Rejected e)
      end
  | op_sendDebuggeeIsStopped => Promise (Fulfilled ())
  end.

(** The engine issuing calls back to back, each run to its end. *)
Fixpoint invokeAll `{Collaborators} (calls : list (Operation * addr)) (w : World)
    : list CallResult * World :=
  match calls with
  | [] => ([], w)
  | (op, p) :: calls' =>
      let (r, w') := invoke op p w in
      let (rs, w'') := invokeAll calls' w' in
      (r :: rs, w'')
  end.

(** The kinds of the events of the calls that succeeded, in call order. *)
Fixpoint kindsOfSuccessful `{Domain} (calls : list (Operation * addr)) (results : list CallResult)
    : list value :=
  match calls, results with
  | (op, _) :: calls', r :: results' =>
      (if succeeded r then [VString (eventKind op)] else [])
        ++ kindsOfSuccessful calls' results'
  | _, _ => []
  end.

(** The properties an Output event's body may have. *)
Definition outputProperties : gset string :=
  {[ "output"; "category"; "variablesReference"; "source"; "line"; "column" ]}.

(** ** Shapes used to state what an operation leaves behind *)

(** The event object [new_Event] leaves in the store, its body at [b]. *)
Definition eventObject `{Domain} (kind : string) (b : addr) : object :=
  <["body" := VRef b]>
    (<["event" := VString kind]>
       (<["type" := VString "event"]> {["seq" := VNumber 0]})).

(** The body of an output event before the location step (lines 79-83). *)
Definition outputBody `{Domain} (output category variablesReference : value) : object :=
  let b := <["output" := output]>
             {["category" := match category with
                              | VUndefined => VString "console"
                              | c => c
                              end]} in
  if truthy variablesReference
  then <["variablesReference" := variablesReference]> b
  else b.

(** The location fields attached to a body. *)
Definition withLocation `{Domain} (source : value) (line column : Z) (b : object) : object :=
  <["column" := VNumber column]>
    (<["line" := VNumber line]> (<["source" := source]> b)).

(** The object literal of lines 107-111, built from the request at
    [params]. *)
Definition outputLiteral `{Collaborators} (h : list object) (params : addr) : object :=
  <["location" := field h params "location"]>
    (<["category" := field h params "category"]>
       {["output" := VString (toStackTraceString (field h params "exceptionStackTrace"))]}).

(** The plain output request [sendExceptionThrown] stands for. *)
Definition asOutput `{Collaborators} (q : IExceptionThrownParameters.t) : IOutputParameters.t :=
  {| IOutputParameters.output :=
       toStackTraceString (VStackTrace (IExceptionThrownParameters.exceptionStackTrace q));
     IOutputParameters.category := IExceptionThrownParameters.category q;
     IOutputParameters.variablesReference := None;
     IOutputParameters.location := IExceptionThrownParameters.location q |}.

(** ** A session model for the collaborators

    The collaborators as the spec describes them (sections 3, 4.2, 4.3 and
    4.4), over concrete entities.  It is the instance at which the generic
    theorems are exercised, and the one the statements about handle minting
    are about. *)
Module SessionModel.

(** Modelled from the spec: a loaded source (section 3).  Its identity is a
    filesystem path, or it is an in-memory artifact with no path, which
    needs a handle; a source of a kind the converters do not know cannot be
    given a client shape (section 7). *)
Inductive LoadedSource : Type :=
  | SourceWithPath (path : string)
  | SourceInMemory (identifier : string)
  | SourceOfUnknownKind (identifier : string).

Record Location : Type := {
  source : LoadedSource;
  lineNumber : Z;
  columnNumber : Z
}.

(** Modelled from the spec: the verification outcome of a breakpoint
    (section 3): verified or not, resolved location, message. *)
Record BPRecipeStatus : Type := {
  verified : bool;
  resolvedLocation : option Location;
  message : string
}.

Record Remote : Type := {
  description : string
}.

(** The client shapes (DebugProtocol.Source, DebugProtocol.Breakpoint). *)
Record ClientSource : Type := {
  path : option string;
  sourceReference : option Z
}.

Record ClientBreakpoint : Type := {
  bp_verified : bool;
  bp_message : string;
  bp_source : option ClientSource;
  bp_line : option Z;
  bp_column : option Z
}.

(** Modelled from the spec: the handle registry (section 4.4).  Handles are
    integers minted in sequence; [minted] maps an entity identity to its
    handle. *)
Record Registry : Type := {
  nextHandle : Z;
  minted : gmap string Z
}.

(** [register(identity)]: the handle of the identity, minted on first use. *)
Definition register (identity : string) (r : Registry) : Z * Registry :=
  match minted r !! identity with
  | Some h => (h, r)
  | None =>
      (nextHandle r,
       {| nextHandle := nextHandle r + 1;
          minted := <[identity := nextHandle r]> (minted r) |})
  end.

#[export] Instance domain : Domain := {|
  ILoadedSource := LoadedSource;
  LocationInLoadedSource := Location;
  IBPRecipeStatus := BPRecipeStatus;
  IFormattedExceptionLineDescription := string;
  RemoteObject := Remote;
  Source := ClientSource;
  Breakpoint := ClientBreakpoint;
  HandlesRegistry := Registry
|}.

(** Modelled from the spec: the source conversion (section 4.2).  A source
    with a path is addressed by it; a source without one gets the handle
    the registry holds for its identity. *)
Definition sourceToClient (s : LoadedSource) (r : Registry) : option ClientSource * Registry :=
  match s with
  | SourceWithPath p =>
      (Some {| path := Some p; sourceReference := None |}, r)
  | SourceInMemory i =>
      let (h, r') := register i r in
      (Some {| path := None; sourceReference := Some h |}, r')
  | SourceOfUnknownKind _ => (None, r)
  end.

Definition unknownSourceKind : value := VString "unknown source kind".
Definition typeError : value := VString "TypeError".

(** Modelled from the spec: SourceToClientConverter.toSource. *)
Definition model_toSource (v : value) (r : Registry) : settled value * Registry :=
  match v with
  | VLoadedSource s =>
      match sourceToClient s r with
      | (Some c, r') => (Fulfilled (VSource c), r')
      | (None, r') => (Rejected unknownSourceKind, r')
      end
  | _ => (Rejected typeError, r)
  end.

(** Modelled from the spec: the projection of a location the location
    converter attaches: the client source of its source, its line and its
    column. *)
Definition model_clientLocation (v : value) (r : Registry) : completion (value * Z * Z) * Registry :=
  match v with
  | VLocation l =>
      match sourceToClient (source l) r with
      | (Some c, r') => (Normal (VSource c, lineNumber l, columnNumber l), r')
      | (None, r') => (Throw unknownSourceKind, r')
      end
  | _ => (Throw typeError, r)
  end.

(** Modelled from the spec: BPRecipieStatusToClientConverter.toBreakpoint;
    the resolved location goes through the conversion used for output. *)
Definition model_toBreakpoint (v : value) (r : Registry) : settled value * Registry :=
  match v with
  | VBPRecipeStatus st =>
      match resolvedLocation st with
      | None =>
          (Fulfilled (VBreakpoint {| bp_verified := verified st; bp_message := message st;
                                     bp_source := None; bp_line := None; bp_column := None |}), r)
      | Some l =>
          match sourceToClient (source l) r with
          | (Some c, r') =>
              (Fulfilled (VBreakpoint {| bp_verified := verified st; bp_message := message st;
                                         bp_source := Some c;
                                         bp_line := Some (lineNumber l);
                                         bp_column := Some (columnNumber l) |}), r')
          | (None, r') => (Rejected unknownSourceKind, r')
          end
      end
  | _ => (Rejected typeError, r)
  end.

Definition newline : string := String (Ascii.ascii_of_nat 10) EmptyString.

(** Modelled from the spec: the exception text formatter (section 4.3): the
    frames' texts, one per line; no frame gives the empty text. *)
Definition model_toStackTraceString (v : value) : string :=
  match v with
  | VStackTrace frames => String.concat newline frames
  | _ => EmptyString
  end.

#[export] Instance collaborators : Collaborators := {|
  THREAD_ID := 1;
  toStackTraceString := model_toStackTraceString;
  clientLocation := model_clientLocation;
  toSource := model_toSource;
  toBreakpoint := model_toBreakpoint
|}.

End SessionModel.

(** ** A session in progress

    Requests the engine holds, one of each shape, in a session that has not
    minted a handle or sent an event yet. *)
Module Examples.
Import SessionModel.

Definition inMemoryLocation : Location :=
  {| source := SourceInMemory "VM42"; lineNumber := 3; columnNumber := 4 |}.

Definition unknownLocation : Location :=
  {| source := SourceOfUnknownKind "blob"; lineNumber := 1; columnNumber := 1 |}.

Definition outputRequest : IOutputParameters.t :=
  {| IOutputParameters.output := "hello";
     IOutputParameters.category := "stdout";
     IOutputParameters.variablesReference := Some 7;
     IOutputParameters.location := Some inMemoryLocation |}.

Definition sourceRequest : ISourceWasLoadedParameters.t :=
  {| ISourceWasLoadedParameters.reason := reason_new;
     ISourceWasLoadedParameters.source := SourceInMemory "VM42" |}.

Definition sourceChangedRequest : ISourceWasLoadedParameters.t :=
  {| ISourceWasLoadedParameters.reason := reason_changed;
     ISourceWasLoadedParameters.source := SourceInMemory "VM42" |}.

Definition breakpointRequest : IBPStatusChangedParameters.t :=
  {| IBPStatusChangedParameters.reason := "changed";
     IBPStatusChangedParameters.bpRecipeStatus :=
       {| verified := true;
          resolvedLocation :=
            Some {| source := SourceWithPath "/app/a.js";
                    lineNumber := 42; columnNumber := 0 |};
          message := "" |} |}.

Definition exceptionRequest : IExceptionThrownParameters.t :=
  {| IExceptionThrownParameters.exceptionStackTrace := ["at foo (a.js:1:1)"];
     IExceptionThrownParameters.category := "stderr";
     IExceptionThrownParameters.location := None |}.

Definition stoppedRequest : IDebuggeeIsStoppedParameters.t :=
  {| IDebuggeeIsStoppedParameters.reason := "exception";
     IDebuggeeIsStoppedParameters.exception := Some {| description := "Error: boom" |} |}.

Definition unresolvableOutputRequest : IOutputParameters.t :=
  {| IOutputParameters.output := "lost";
     IOutputParameters.category := "stdout";
     IOutputParameters.variablesReference := None;
     IOutputParameters.location := Some unknownLocation |}.

Definition unresolvableExceptionRequest : IExceptionThrownParameters.t :=
  {| IExceptionThrownParameters.exceptionStackTrace := ["at bar (blob:1:1)"];
     IExceptionThrownParameters.category := "stderr";
     IExceptionThrownParameters.location := Some unknownLocation |}.

Definition unknownSourceRequest : ISourceWasLoadedParameters.t :=
  {| ISourceWasLoadedParameters.reason := reason_new;
     ISourceWasLoadedParameters.source := SourceOfUnknownKind "blob" |}.

Definition unresolvableBreakpointRequest : IBPStatusChangedParameters.t :=
  {| IBPStatusChangedParameters.reason := "changed";
     IBPStatusChangedParameters.bpRecipeStatus :=
       {| verified := false;
          resolvedLocation := Some unknownLocation;
          message := "" |} |}.

Definition session : World :=
  {| heap := [ IOutputParameters.repr outputRequest;
               ISourceWasLoadedParameters.repr sourceRequest;
               IBPStatusChangedParameters.repr breakpointRequest;
               IExceptionThrownParameters.repr exceptionRequest;
               IDebuggeeIsStoppedParameters.repr stoppedRequest;
               IOutputParameters.repr unresolvableOutputRequest;
               IOutputParameters.repr (asOutput exceptionRequest);
               ISourceWasLoadedParameters.repr sourceChangedRequest;
               IExceptionThrownParameters.repr unresolvableExceptionRequest;
               ISourceWasLoadedParameters.repr unknownSourceRequest;
               IBPStatusChangedParameters.repr unresolvableBreakpointRequest ];
     handles := {| nextHandle := 1000; minted := ∅ |};
     sent := [] |}.

(** The session after the debuggee was reported stopped: more objects in
    the store, an event on the wire, the registry as before. *)
Definition laterSession : World :=
  (invoke op_sendDebuggeeIsStopped 4%nat session).2.

(** Calls issued back to back; the second and the fourth fail. *)
Definition calls : list (Operation * addr) :=
  [ (op_sendOutput, 0%nat); (op_sendOutput, 5%nat);
    (op_sendSourceWasLoaded, 1%nat); (op_sendBPStatusChanged, 10%nat);
    (op_sendDebuggeeIsStopped, 4%nat); (op_sendExceptionThrown, 3%nat) ].



(** The registry once the source "VM42" has its handle. *)
Definition registryWithVM42 : Registry :=
  {| nextHandle := 1001; minted := {["VM42" := 1000]} |}.

End Examples.

(** * Properties *)

(** ** The store *)

Section Store.
Context `{Domain}.

Lemma field_old (h l : list object) (a : addr) (f : string) :
  (a < length h)%nat → field (h ++ l) a f = field h a f.
Proof. intros Ha. unfold field. by rewrite lookup_app_l. Qed.

Lemma field_at (h l : list object) (o : object) (f : string) :
  field (h ++ o :: l) (length h) f = default VUndefined (o !! f).
Proof. unfold field. by rewrite list_lookup_middle. Qed.

Lemma lookup_next {A} (h l : list A) (o o' : A) :
  (h ++ o :: o' :: l) !! S (length h) = Some o'.
Proof.
  rewrite lookup_app_r by lia.
  by replace (S (length h) - length h)%nat with 1%nat by lia.
Qed.

Lemma field_lookup (h : list object) (a : addr) (o : object) (f : string) :
  h !! a = Some o → field h a f = default VUndefined (o !! f).
Proof. intros Ha. unfold field. by rewrite Ha. Qed.

Lemma alter_at (g : object → object) (h l : list object) (o : object) :
  alter g (length h) (h ++ o :: l) = h ++ g o :: l.
Proof.
  replace (length h) with (length h + 0)%nat by lia.
  by rewrite alter_app_r.
Qed.

Lemma alter_next (g : object → object) (h l : list object) (o o' : object) :
  alter g (S (length h)) (h ++ o :: o' :: l) = h ++ o :: g o' :: l.
Proof.
  replace (S (length h)) with (length h + 1)%nat by lia.
  by rewrite alter_app_r.
Qed.

(** [new_Event] appends the event object and its body to the store. *)
Lemma new_Event_run (kind : string) (b : object) (w : World) :
  new_Event kind b w =
    (Normal (length (heap w)),
     set_heap (heap w ++ [eventObject kind (S (length (heap w))); b]) w).
Proof.
  unfold new_Event, mbind, M_bind, mret, M_ret, alloc, setField. simpl.
  rewrite <- app_assoc. simpl. rewrite alter_at.
  rewrite length_app. simpl. rewrite Nat.add_1_r. reflexivity.
Qed.

Lemma eventObject_event (kind : string) (b : addr) :
  eventObject kind b !! "event" = Some (VString kind).
Proof. reflexivity. Qed.

Lemma eventObject_body (kind : string) (b : addr) :
  eventObject kind b !! "body" = Some (VRef b).
Proof. reflexivity. Qed.

Lemma snapshot_event (h : list object) (kind : string) (b : object) :
  snapshot (h ++ [eventObject kind (S (length h)); b]) (length h) =
    {| event := VString kind; body := b |}.
Proof.
  unfold snapshot. rewrite !field_at, eventObject_event, eventObject_body.
  simpl. by rewrite lookup_next.
Qed.

End Store.

(** ** What each operation does to the world

    One equation per operation: the result and the world it leaves, by
    cases on what the request holds and on what the converter answers. *)

Section Runs.
Context `{Collaborators}.

#[local] Arguments field : simpl never.
#[local] Arguments snapshot : simpl never.
#[local] Arguments eventObject : simpl never.
#[local] Arguments new_Event : simpl never.


Lemma sendOutput_run (w : World) (params : addr) :
  (params < length (heap w))%nat →
  let h := heap w in
  let b := outputBody (field h params "output") (field h params "category")
             (field h params "variablesReference") in
  let e := eventObject "output" (S (length h)) in
  sendOutput params w =
    if truthy (field h params "location") then
      match clientLocation (field h params "location") (handles w) with
      | (Normal (s, l, c), r) =>
          (Normal (),
           {| heap := h ++ [e; withLocation s l c b];
              handles := r;
              sent := sent w ++ [{| event := VString "output";
                                    body := withLocation s l c b |}] |})
      | (Throw x, r) =>
          (Throw x, {| heap := h ++ [e; b]; handles := r; sent := sent w |})
      end
    else
      (Normal (),
       {| heap := h ++ [e; b];
          handles := handles w;
          sent := sent w ++ [{| event := VString "output"; body := b |}] |}).
Proof.
  intros Hp h b e. subst b e.
  unfold sendOutput, new_OutputEvent, outputBody, toLocationInSource, onHandles, sendEvent,
    getField, mbind, M_bind, mret, M_ret.
  rewrite new_Event_run. fold h. simpl.
  rewrite ?(field_old h _ params) by done.
  destruct (truthy (field h params "variablesReference")); simpl;
    rewrite ?field_at, ?eventObject_body; simpl;
    rewrite ?alter_next, ?(field_old h _ params) by done;
    (destruct (truthy (field h params "location")); simpl;
     [ rewrite ?field_at, ?eventObject_body, ?(field_old h _ params) by done;
       destruct (clientLocation (field h params "location") (handles w)) as [[[[s l] c]|x] r];
       simpl; rewrite ?alter_next, ?snapshot_event
     | rewrite ?snapshot_event ]).
  all: reflexivity.
Qed.

Lemma sendSourceWasLoaded_run (w : World) (params : addr) :
  let h := heap w in
  sendSourceWasLoaded params w =
    match toSource (field h params "source") (handles w) with
    | (Fulfilled c, r) =>
        let b := <["source" := c]> {["reason" := field h params "reason"]} in
        (Fulfilled (),
         {| heap := h ++ [eventObject "loadedSource" (S (length h)); b];
            handles := r;
            sent := sent w ++ [{| event := VString "loadedSource"; body := b |}] |})
    | (Rejected x, r) => (Rejected x, set_handles r w)
    end.
Proof.
  intros h.
  unfold sendSourceWasLoaded, async, await, new_LoadedSourceEvent, onHandles, sendEvent,
    getField, mbind, M_bind, mret, M_ret.
  fold h.
  destruct (toSource (field h params "source") (handles w)) as [[c|x] r]; [|done].
  rewrite new_Event_run. simpl. fold h. by rewrite snapshot_event.
Qed.

Lemma sendBPStatusChanged_run (w : World) (params : addr) :
  let h := heap w in
  sendBPStatusChanged params w =
    match toBreakpoint (field h params "bpRecipeStatus") (handles w) with
    | (Fulfilled c, r) =>
        let b := <["breakpoint" := c]> {["reason" := field h params "reason"]} in
        (Fulfilled (),
         {| heap := h ++ [eventObject "breakpoint" (S (length h)); b];
            handles := r;
            sent := sent w ++ [{| event := VString "breakpoint"; body := b |}] |})
    | (Rejected x, r) => (Rejected x, set_handles r w)
    end.
Proof.
  intros h.
  unfold sendBPStatusChanged, async, await, new_BreakpointEvent, onHandles, sendEvent,
    getField, mbind, M_bind, mret, M_ret.
  fold h.
  destruct (toBreakpoint (field h params "bpRecipeStatus") (handles w)) as [[c|x] r]; [|done].
  rewrite new_Event_run. simpl. fold h. by rewrite snapshot_event.
Qed.

Lemma sendDebuggeeIsStopped_run (w : World) (params : addr) :
  let h := heap w in
  let b := StoppedEvent2_body (field h params "reason") THREAD_ID (field h params "exception") in
  sendDebuggeeIsStopped params w =
    (Fulfilled (),
     {| heap := h ++ [eventObject "stopped" (S (length h)); b];
        handles := handles w;
        sent := sent w ++ [{| event := VString "stopped"; body := b |}] |}).
Proof.
  intros h b.
  unfold sendDebuggeeIsStopped, async, new_StoppedEvent2, sendEvent,
    getField, mbind, M_bind, mret, M_ret.
  rewrite new_Event_run. simpl. fold h. by rewrite snapshot_event.
Qed.

Lemma sendExceptionThrown_run (w : World) (params : addr) :
  let h := heap w in
  sendExceptionThrown params w =
    async (sendOutput (length h)) (set_heap (h ++ [outputLiteral h params]) w).
Proof.
  intros h.
  unfold sendExceptionThrown, async, alloc, getField, mbind, M_bind, mret, M_ret.
  reflexivity.
Qed.

End Runs.

(** ** Requests in the store *)

Section Requests.
Context `{Domain}.

Lemma field_IOutputParameters (h : list object) (p : addr) (q : IOutputParameters.t) :
  h !! p = Some (IOutputParameters.repr q) →
  field h p "output" = VString (IOutputParameters.output q) ∧
  field h p "category" = VString (IOutputParameters.category q) ∧
  field h p "variablesReference" = optionalValue VNumber (IOutputParameters.variablesReference q) ∧
  field h p "location" = optionalValue VLocation (IOutputParameters.location q).
Proof.
  intros Hp. rewrite !(field_lookup h p _ _ Hp).
  by destruct q as [o c [n|] [l|]].
Qed.

Lemma field_ISourceWasLoadedParameters (h : list object) (p : addr) (q : ISourceWasLoadedParameters.t) :
  h !! p = Some (ISourceWasLoadedParameters.repr q) →
  field h p "reason" = VString (LoadedSourceReason_string (ISourceWasLoadedParameters.reason q)) ∧
  field h p "source" = VLoadedSource (ISourceWasLoadedParameters.source q).
Proof. intros Hp. by rewrite !(field_lookup h p _ _ Hp). Qed.

Lemma field_IBPStatusChangedParameters (h : list object) (p : addr) (q : IBPStatusChangedParameters.t) :
  h !! p = Some (IBPStatusChangedParameters.repr q) →
  field h p "reason" = VString (IBPStatusChangedParameters.reason q) ∧
  field h p "bpRecipeStatus" = VBPRecipeStatus (IBPStatusChangedParameters.bpRecipeStatus q).
Proof. intros Hp. by rewrite !(field_lookup h p _ _ Hp). Qed.

Lemma field_IExceptionThrownParameters (h : list object) (p : addr) (q : IExceptionThrownParameters.t) :
  h !! p = Some (IExceptionThrownParameters.repr q) →
  field h p "exceptionStackTrace" = VStackTrace (IExceptionThrownParameters.exceptionStackTrace q) ∧
  field h p "category" = VString (IExceptionThrownParameters.category q) ∧
  field h p "location" = optionalValue VLocation (IExceptionThrownParameters.location q).
Proof.
  intros Hp. rewrite !(field_lookup h p _ _ Hp).
  by destruct q as [t c [l|]].
Qed.

Lemma field_IDebuggeeIsStoppedParameters (h : list object) (p : addr) (q : IDebuggeeIsStoppedParameters.t) :
  h !! p = Some (IDebuggeeIsStoppedParameters.repr q) →
  field h p "reason" = VString (IDebuggeeIsStoppedParameters.reason q) ∧
  field h p "exception" = optionalValue VRemoteObject (IDebuggeeIsStoppedParameters.exception q).
Proof.
  intros Hp. rewrite !(field_lookup h p _ _ Hp).
  by destruct q as [r [e|]].
Qed.

End Requests.


(** ** The reporter *)

Section ReporterProperties.
Context `{Collaborators}.

Lemma outputBody_variablesReference (o c v : value) :
  outputBody o c v !! "variablesReference" = if truthy v then Some v else None.
Proof. unfold outputBody. by destruct (truthy v). Qed.


Lemma withLocation_variablesReference (s : value) (l c : Z) (b : object) :
  withLocation s l c b !! "variablesReference" = b !! "variablesReference".
Proof. unfold withLocation. by rewrite !lookup_insert_ne. Qed.


Lemma StoppedEvent2_body_threadId (r : value) (t : Z) (e : value) :
  StoppedEvent2_body r t e !! "threadId" = Some (VNumber t).
Proof. by destruct e. Qed.

Lemma StoppedEvent2_body_reason (r : value) (t : Z) (e : value) :
  StoppedEvent2_body r t e !! "reason" = Some r.
Proof. by destruct e. Qed.

(** [sendExceptionThrown] in full: the literal is allocated, then the output
    path runs on it. *)
Lemma sendExceptionThrown_run_output (w : World) (params : addr) :
  let h := heap w in
  let h1 := h ++ [outputLiteral h params] in
  let b := outputBody (VString (toStackTraceString (field h params "exceptionStackTrace")))
             (field h params "category") VUndefined in
  let e := eventObject "output" (S (length h1)) in
  sendExceptionThrown params w =
    if truthy (field h params "location") then
      match clientLocation (field h params "location") (handles w) with
      | (Normal (s, l, c), r) =>
          (Fulfilled (),
           {| heap := h1 ++ [e; withLocation s l c b];
              handles := r;
              sent := sent w ++ [{| event := VString "output";
                                    body := withLocation s l c b |}] |})
      | (Throw x, r) =>
          (Rejected x, {| heap := h1 ++ [e; b]; handles := r; sent := sent w |})
      end
    else
      (Fulfilled (),
       {| heap := h1 ++ [e; b];
          handles := handles w;
          sent := sent w ++ [{| event := VString "output"; body := b |}] |}).
Proof.
  intros h h1 b e. rewrite sendExceptionThrown_run. fold h. unfold async.
  rewrite sendOutput_run; simpl; [|rewrite length_app; simpl; lia].
  rewrite !field_at.
  replace (default VUndefined (outputLiteral h params !! "output"))
    with (VString (toStackTraceString (field h params "exceptionStackTrace"))) by done.
  replace (default VUndefined (outputLiteral h params !! "category"))
    with (field h params "category") by done.
  replace (default VUndefined (outputLiteral h params !! "variablesReference"))
    with (@VUndefined H) by done.
  replace (default VUndefined (outputLiteral h params !! "location"))
    with (field h params "location") by done.
  subst h1 b e.
  destruct (truthy (field h params "location")); [|done].
  by destruct (clientLocation (field h params "location") (handles w)) as [[[[s l] c]|x] r].
Qed.


(** C2. Reporting that the debuggee stopped always succeeds and sends
    exactly one Stopped event; whatever the request's reason, and whether
    or not it carries an exception, the event's thread identifier is
    [THREAD_ID]. *)
Theorem sendDebuggeeIsStopped_fixed_thread
    (w : World) (p : addr) (q : IDebuggeeIsStoppedParameters.t) :
  heap w !! p = Some (IDebuggeeIsStoppedParameters.repr q) →
  ∃ w' ev,
    sendDebuggeeIsStopped p w = (Fulfilled (), w') ∧
    sent w' = sent w ++ [ev] ∧
    event ev = VString "stopped" ∧
    body ev !! "threadId" = Some (VNumber THREAD_ID) ∧
    body ev !! "reason" = Some (VString (IDebuggeeIsStoppedParameters.reason q)).
Proof.
  intros Hp. destruct (field_IDebuggeeIsStoppedParameters _ _ _ Hp) as (Hr & _).
  rewrite sendDebuggeeIsStopped_run. cbv zeta. rewrite Hr.
  do 2 eexists. split; [done|]. cbn [sent event body].
  split; [done|]. split; [done|]. cbn [body].
  by rewrite StoppedEvent2_body_threadId, StoppedEvent2_body_reason.
Qed.

(** C7. When the conversion of the request's [bpRecipeStatus] succeeds,
    [sendBPStatusChanged] sends exactly one Breakpoint event, made of the
    request's reason and of the client breakpoint the converter produced. *)
Theorem sendBPStatusChanged_event
    (w : World) (p : addr) (q : IBPStatusChangedParameters.t)
    (breakpoint : value) (r : HandlesRegistry) :
  heap w !! p = Some (IBPStatusChangedParameters.repr q) →
  toBreakpoint (VBPRecipeStatus (IBPStatusChangedParameters.bpRecipeStatus q)) (handles w)
    = (Fulfilled breakpoint, r) →
  ∃ w',
    sendBPStatusChanged p w = (Fulfilled (), w') ∧
    sent w' = sent w ++
      [{| event := VString "breakpoint";
          body := <["breakpoint" := breakpoint]>
                    {["reason" := VString (IBPStatusChangedParameters.reason q)]} |}].
Proof.
  intros Hp Hconv. destruct (field_IBPStatusChangedParameters _ _ _ Hp) as (Hr & Hs).
  rewrite sendBPStatusChanged_run. cbv zeta. rewrite Hs, Hconv, Hr.
  by eexists.
Qed.

(** C8. When the conversion of the request's [source] succeeds,
    [sendSourceWasLoaded] sends exactly one LoadedSource event, made of the
    request's reason (new, changed or removed) and of the client source the
    converter produced. *)
Theorem sendSourceWasLoaded_event
    (w : World) (p : addr) (q : ISourceWasLoadedParameters.t)
    (clientSource : value) (r : HandlesRegistry) :
  heap w !! p = Some (ISourceWasLoadedParameters.repr q) →
  toSource (VLoadedSource (ISourceWasLoadedParameters.source q)) (handles w)
    = (Fulfilled clientSource, r) →
  ∃ w',
    sendSourceWasLoaded p w = (Fulfilled (), w') ∧
    sent w' = sent w ++
      [{| event := VString "loadedSource";
          body := <["source" := clientSource]>
                    {["reason" := VString (LoadedSourceReason_string
                                             (ISourceWasLoadedParameters.reason q))]} |}].
Proof.
  intros Hp Hconv. destruct (field_ISourceWasLoadedParameters _ _ _ Hp) as (Hr & Hs).
  rewrite sendSourceWasLoaded_run. cbv zeta. rewrite Hs, Hconv, Hr.
  by eexists.
Qed.

(** C1. On a well-formed request whose conversions succeed, each of the five
    operations completes and hands exactly one event to the session. *)
Theorem each_operation_sends_exactly_one_event :
  (∀ w p (q : IOutputParameters.t),
     heap w !! p = Some (IOutputParameters.repr q) →
     (∀ l, IOutputParameters.location q = Some l →
           ∃ c r, clientLocation (VLocation l) (handles w) = (Normal c, r)) →
     ∃ w' ev, sendOutput p w = (Normal (), w') ∧ sent w' = sent w ++ [ev]) ∧
  (∀ w p (q : ISourceWasLoadedParameters.t),
     heap w !! p = Some (ISourceWasLoadedParameters.repr q) →
     (∃ c r, toSource (VLoadedSource (ISourceWasLoadedParameters.source q)) (handles w)
               = (Fulfilled c, r)) →
     ∃ w' ev, sendSourceWasLoaded p w = (Fulfilled (), w') ∧ sent w' = sent w ++ [ev]) ∧
  (∀ w p (q : IBPStatusChangedParameters.t),
     heap w !! p = Some (IBPStatusChangedParameters.repr q) →
     (∃ c r, toBreakpoint (VBPRecipeStatus (IBPStatusChangedParameters.bpRecipeStatus q))
               (handles w) = (Fulfilled c, r)) →
     ∃ w' ev, sendBPStatusChanged p w = (Fulfilled (), w') ∧ sent w' = sent w ++ [ev]) ∧
  (∀ w p (q : IExceptionThrownParameters.t),
     heap w !! p = Some (IExceptionThrownParameters.repr q) →
     (∀ l, IExceptionThrownParameters.location q = Some l →
           ∃ c r, clientLocation (VLocation l) (handles w) = (Normal c, r)) →
     ∃ w' ev, sendExceptionThrown p w = (Fulfilled (), w') ∧ sent w' = sent w ++ [ev]) ∧
  (∀ w p (q : IDebuggeeIsStoppedParameters.t),
     heap w !! p = Some (IDebuggeeIsStoppedParameters.repr q) →
     ∃ w' ev, sendDebuggeeIsStopped p w = (Fulfilled (), w') ∧ sent w' = sent w ++ [ev]).
Proof.
  repeat split.
  - intros w p q Hp Hconv.
    pose proof (lookup_lt_Some _ _ _ Hp) as Hlt.
    destruct (field_IOutputParameters _ _ _ Hp) as (_ & _ & _ & Hl).
    rewrite (sendOutput_run w p Hlt). cbv zeta. rewrite Hl.
    destruct (IOutputParameters.location q) as [l|]; simpl.
    + destruct (Hconv l eq_refl) as ([[s n] c] & r & ->). by do 2 eexists.
    + by do 2 eexists.
  - intros w p q Hp (c & r & Hconv).
    destruct (field_ISourceWasLoadedParameters _ _ _ Hp) as (_ & Hs).
    rewrite sendSourceWasLoaded_run. cbv zeta. rewrite Hs, Hconv. by do 2 eexists.
  - intros w p q Hp (c & r & Hconv).
    destruct (field_IBPStatusChangedParameters _ _ _ Hp) as (_ & Hs).
    rewrite sendBPStatusChanged_run. cbv zeta. rewrite Hs, Hconv. by do 2 eexists.
  - intros w p q Hp Hconv.
    destruct (field_IExceptionThrownParameters _ _ _ Hp) as (_ & _ & Hl).
    rewrite sendExceptionThrown_run_output. cbv zeta. rewrite Hl.
    destruct (IExceptionThrownParameters.location q) as [l|]; simpl.
    + destruct (Hconv l eq_refl) as ([[s n] c] & r & ->). by do 2 eexists.
    + by do 2 eexists.
  - intros w p q Hp. rewrite sendDebuggeeIsStopped_run. by do 2 eexists.
Qed.


(** C5, as the code has it.  When a conversion fails, nothing is sent for
    the request and the conversion is not tried again: the registry is left
    as that one failed conversion left it.  The caller of
    [sendSourceWasLoaded], [sendBPStatusChanged] or [sendExceptionThrown]
    gets a promise rejected with the converter's reason; the caller of
    [sendOutput], which returns [void], gets the reason thrown at it. *)
Theorem conversion_failure_sends_nothing :
  (∀ w p (q : IOutputParameters.t) l e r,
     heap w !! p = Some (IOutputParameters.repr q) →
     IOutputParameters.location q = Some l →
     clientLocation (VLocation l) (handles w) = (Throw e, r) →
     ∃ w', invoke op_sendOutput p w = (Threw e, w') ∧
           sent w' = sent w ∧ handles w' = r) ∧
  (∀ w p (q : ISourceWasLoadedParameters.t) e r,
     heap w !! p = Some (ISourceWasLoadedParameters.repr q) →
     toSource (VLoadedSource (ISourceWasLoadedParameters.source q)) (handles w)
       = (Rejected e, r) →
     ∃ w', invoke op_sendSourceWasLoaded p w = (Promise (Rejected e), w') ∧
           sent w' = sent w ∧ handles w' = r) ∧
  (∀ w p (q : IBPStatusChangedParameters.t) e r,
     heap w !! p = Some (IBPStatusChangedParameters.repr q) →
     toBreakpoint (VBPRecipeStatus (IBPStatusChangedParameters.bpRecipeStatus q)) (handles w)
       = (Rejected e, r) →
     ∃ w', invoke op_sendBPStatusChanged p w = (Promise (Rejected e), w') ∧
           sent w' = sent w ∧ handles w' = r) ∧
  (∀ w p (q : IExceptionThrownParameters.t) l e r,
     heap w !! p = Some (IExceptionThrownParameters.repr q) →
     IExceptionThrownParameters.location q = Some l →
     clientLocation (VLocation l) (handles w) = (Throw e, r) →
     ∃ w', invoke op_sendExceptionThrown p w = (Promise (Rejected e), w') ∧
           sent w' = sent w ∧ handles w' = r).
Proof.
  repeat split; unfold invoke, callSync, callAsync.
  - intros w p q l e r Hp Hloc Hconv.
    pose proof (lookup_lt_Some _ _ _ Hp) as Hlt.
    destruct (field_IOutputParameters _ _ _ Hp) as (_ & _ & _ & Hl).
    rewrite (sendOutput_run w p Hlt). cbv zeta. rewrite Hl, Hloc. simpl.
    rewrite Hconv. by eexists.
  - intros w p q e r Hp Hconv.
    destruct (field_ISourceWasLoadedParameters _ _ _ Hp) as (_ & Hs).
    rewrite sendSourceWasLoaded_run. cbv zeta. rewrite Hs, Hconv. by eexists.
  - intros w p q e r Hp Hconv.
    destruct (field_IBPStatusChangedParameters _ _ _ Hp) as (_ & Hs).
    rewrite sendBPStatusChanged_run. cbv zeta. rewrite Hs, Hconv. by eexists.
  - intros w p q l e r Hp Hloc Hconv.
    destruct (field_IExceptionThrownParameters _ _ _ Hp) as (_ & _ & Hl).
    rewrite sendExceptionThrown_run_output. cbv zeta. rewrite Hl, Hloc. simpl.
    rewrite Hconv. by eexists.
Qed.

(** Every operation only adds objects to the store. *)
Lemma invoke_extends_store (op : Operation) (w : World) (p : addr) :
  (p < length (heap w))%nat →
  ∃ fresh, heap (invoke op p w).2 = heap w ++ fresh.
Proof.
  intros Hlt. destruct op; unfold invoke, callSync, callAsync.
  - rewrite (sendOutput_run w p Hlt). cbv zeta.
    destruct (truthy _); [|by eexists].
    destruct (clientLocation _ _) as [[[[s l] c]|x] r]; by eexists.
  - rewrite sendSourceWasLoaded_run. cbv zeta.
    destruct (toSource _ _) as [[c|x] r]; [by eexists|].
    exists []. by rewrite app_nil_r.
  - rewrite sendBPStatusChanged_run. cbv zeta.
    destruct (toBreakpoint _ _) as [[c|x] r]; [by eexists|].
    exists []. by rewrite app_nil_r.
  - rewrite sendExceptionThrown_run_output. cbv zeta.
    destruct (truthy _).
    + destruct (clientLocation _ _) as [[[[s l] c]|x] r]; simpl;
        rewrite <- app_assoc; by eexists.
    + simpl. rewrite <- app_assoc. by eexists.
  - rewrite sendDebuggeeIsStopped_run. by eexists.
Qed.

(** C9. No operation changes an object that existed when it was called,
    whether it completes or fails: the store afterwards is the store before
    followed by the objects the operation created (the event, its body,
    which is where lines 82 and 86 write, and the literal of
    [sendExceptionThrown]).  In particular the request is as it was. *)
Theorem operations_leave_the_request_unchanged
    (op : Operation) (w : World) (p : addr) (o : object) :
  heap w !! p = Some o →
  heap (invoke op p w).2 !! p = Some o ∧
  ∃ fresh, heap (invoke op p w).2 = heap w ++ fresh.
Proof.
  intros Hp. pose proof (lookup_lt_Some _ _ _ Hp) as Hlt.
  destruct (invoke_extends_store op w p Hlt) as [fresh Hfresh].
  split; [|by exists fresh].
  rewrite Hfresh. by rewrite lookup_app_l.
Qed.

(** C10. Whatever the request object holds, no event that
    [sendExceptionThrown] sends has a [variablesReference]: the object it
    hands to [sendOutput] has none. *)
Theorem sendExceptionThrown_no_variablesReference (w : World) (p : addr) :
  ∃ new, sent (sendExceptionThrown p w).2 = sent w ++ new ∧
         ∀ ev, ev ∈ new → body ev !! "variablesReference" = None.
Proof.
  rewrite sendExceptionThrown_run_output. cbv zeta.
  destruct (truthy _).
  - destruct (clientLocation _ _) as [[[[s l] c]|x] r]; simpl.
    + eexists. split; [done|]. intros ev ->%list_elem_of_singleton. simpl.
      by rewrite withLocation_variablesReference, outputBody_variablesReference.
    + exists []. split; [by rewrite app_nil_r|]. by intros ev ?%elem_of_nil.
  - eexists. split; [done|]. intros ev ->%list_elem_of_singleton. simpl.
    by rewrite outputBody_variablesReference.
Qed.

End ReporterProperties.

(** ** Handle minting in the session model *)

Module SessionModelProperties.
Import SessionModel.

Lemma register_again (identity : string) (r : Registry) :
  register identity (register identity r).2 = ((register identity r).1, (register identity r).2).
Proof.
  unfold register. destruct (minted r !! identity) as [h|] eqn:Hr; simpl.
  - by rewrite Hr.
  - by rewrite lookup_insert_eq.
Qed.

Lemma toSource_in_memory (identifier : string) (r : Registry) :
  toSource (VLoadedSource (SourceInMemory identifier)) r =
    (Fulfilled (VSource {| path := None; sourceReference := Some (register identifier r).1 |}),
     (register identifier r).2).
Proof. simpl. by destruct (register identifier r). Qed.

(** C6. Two successive [sendSourceWasLoaded] calls for the same in-memory
    source (through one request or two) both succeed, and the client
    sources of the two LoadedSource events they send reference the same
    handle. *)
Theorem memory_source_reported_with_one_handle
    (w : World) (p1 p2 : addr) (q1 q2 : ISourceWasLoadedParameters.t)
    (identifier : string) :
  heap w !! p1 = Some (ISourceWasLoadedParameters.repr q1) →
  heap w !! p2 = Some (ISourceWasLoadedParameters.repr q2) →
  ISourceWasLoadedParameters.source q1 = SourceInMemory identifier →
  ISourceWasLoadedParameters.source q2 = SourceInMemory identifier →
  ∃ w1 w2 handle,
    sendSourceWasLoaded p1 w = (Fulfilled (), w1) ∧
    sendSourceWasLoaded p2 w1 = (Fulfilled (), w2) ∧
    let clientSource := VSource {| path := None; sourceReference := Some handle |} in
    sent w2 = sent w ++
      [ {| event := VString "loadedSource";
           body := <["source" := clientSource]>
                     {["reason" := VString (LoadedSourceReason_string
                                              (ISourceWasLoadedParameters.reason q1))]} |};
        {| event := VString "loadedSource";
           body := <["source" := clientSource]>
                     {["reason" := VString (LoadedSourceReason_string
                                              (ISourceWasLoadedParameters.reason q2))]} |} ].
Proof.
  intros Hp1 Hp2 Hs1 Hs2.
  destruct (field_ISourceWasLoadedParameters _ _ _ Hp1) as (Hr1 & Hf1).
  destruct (field_ISourceWasLoadedParameters _ _ _ Hp2) as (Hr2 & Hf2).
  rewrite Hs1 in Hf1. rewrite Hs2 in Hf2.
  rewrite sendSourceWasLoaded_run. cbv zeta.
  rewrite Hf1, Hr1, toSource_in_memory.
  eexists _, _, (register identifier (handles w)).1. split; [done|].
  rewrite sendSourceWasLoaded_run. cbv zeta. cbn [heap handles sent].
  rewrite !(field_old (heap w)) by (by eapply lookup_lt_Some).
  rewrite Hf2, Hr2, toSource_in_memory, register_again.
  split; [done|]. cbn [sent]. by rewrite <- app_assoc.
Qed.

End SessionModelProperties.

(** ** The theorems at work on the session in progress *)

Module SessionExamples.
Import SessionModel Examples.

Lemma each_operation_sends_exactly_one_event_witness :
  (∃ w' ev, sendOutput 0%nat session = (Normal (), w') ∧ sent w' = sent session ++ [ev]) ∧
  (∃ w' ev, sendSourceWasLoaded 1%nat session = (Fulfilled (), w') ∧ sent w' = sent session ++ [ev]) ∧
  (∃ w' ev, sendBPStatusChanged 2%nat session = (Fulfilled (), w') ∧ sent w' = sent session ++ [ev]) ∧
  (∃ w' ev, sendExceptionThrown 3%nat session = (Fulfilled (), w') ∧ sent w' = sent session ++ [ev]) ∧
  (∃ w' ev, sendDebuggeeIsStopped 4%nat session = (Fulfilled (), w') ∧ sent w' = sent session ++ [ev]).
Proof.
  destruct each_operation_sends_exactly_one_event as (Ho & Hs & Hb & He & Hd).
  repeat split.
  - apply (Ho session 0%nat outputRequest); [reflexivity|].
    intros l [= <-]. do 2 eexists. reflexivity.
  - apply (Hs session 1%nat sourceRequest); [reflexivity|].
    do 2 eexists. reflexivity.
  - apply (Hb session 2%nat breakpointRequest); [reflexivity|].
    do 2 eexists. reflexivity.
  - apply (He session 3%nat exceptionRequest); [reflexivity|].
    intros l [=].
  - apply (Hd session 4%nat stoppedRequest). reflexivity.
Defined.

Lemma sendDebuggeeIsStopped_fixed_thread_witness :
  heap session !! 4%nat = Some (IDebuggeeIsStoppedParameters.repr stoppedRequest) ∧
  ∃ w' ev,
    sendDebuggeeIsStopped 4%nat session = (Fulfilled (), w') ∧
    sent w' = sent session ++ [ev] ∧
    event ev = VString "stopped" ∧
    body ev !! "threadId" = Some (VNumber THREAD_ID) ∧
    body ev !! "reason" = Some (VString "exception").
Proof.
  split; [reflexivity|].
  apply (sendDebuggeeIsStopped_fixed_thread session 4%nat stoppedRequest). reflexivity.
Defined.



Lemma conversion_failure_sends_nothing_witness :
  (∃ w', invoke op_sendOutput 5%nat session = (Threw unknownSourceKind, w') ∧
         sent w' = sent session ∧ handles w' = handles session) ∧
  (∃ w', invoke op_sendSourceWasLoaded 9%nat session = (Promise (Rejected unknownSourceKind), w') ∧
         sent w' = sent session ∧ handles w' = handles session) ∧
  (∃ w', invoke op_sendBPStatusChanged 10%nat session = (Promise (Rejected unknownSourceKind), w') ∧
         sent w' = sent session ∧ handles w' = handles session) ∧
  (∃ w', invoke op_sendExceptionThrown 8%nat session = (Promise (Rejected unknownSourceKind), w') ∧
         sent w' = sent session ∧ handles w' = handles session).
Proof.
  destruct conversion_failure_sends_nothing as (Ho & Hs & Hb & He).
  repeat split.
  - apply (Ho session 5%nat unresolvableOutputRequest unknownLocation); reflexivity.
  - apply (Hs session 9%nat unknownSourceRequest); reflexivity.
  - apply (Hb session 10%nat unresolvableBreakpointRequest); reflexivity.
  - apply (He session 8%nat unresolvableExceptionRequest unknownLocation); reflexivity.
Defined.

(** C5, as stated, fails for [sendOutput]: the location of this request
    cannot be converted, and what the caller gets is not a promise at all,
    let alone a rejected one: the reason is thrown at it. *)
Lemma sendOutput_failure_is_not_a_pending_operation :
  heap session !! 5%nat = Some (IOutputParameters.repr unresolvableOutputRequest) ∧
  (clientLocation (VLocation unknownLocation) (handles session)).1 = Throw unknownSourceKind ∧
  (invoke op_sendOutput 5%nat session).1 = Threw unknownSourceKind ∧
  ¬ failedPendingOperation (invoke op_sendOutput 5%nat session).1.
Proof.
  split; [reflexivity|]. split; [reflexivity|].
  assert (Hthrown : (invoke op_sendOutput 5%nat session).1 = Threw unknownSourceKind) by reflexivity.
  split; [exact Hthrown|].
  intros [e He]. rewrite Hthrown in He. discriminate He.
Qed.

Lemma memory_source_reported_with_one_handle_witness :
  heap session !! 1%nat = Some (ISourceWasLoadedParameters.repr sourceRequest) ∧
  heap session !! 7%nat = Some (ISourceWasLoadedParameters.repr sourceChangedRequest) ∧
  ∃ w1 w2 handle,
    sendSourceWasLoaded 1%nat session = (Fulfilled (), w1) ∧
    sendSourceWasLoaded 7%nat w1 = (Fulfilled (), w2) ∧
    let clientSource := VSource {| path := None; sourceReference := Some handle |} in
    sent w2 = sent session ++
      [ {| event := VString "loadedSource";
           body := <["source" := clientSource]> {["reason" := VString "new"]} |};
        {| event := VString "loadedSource";
           body := <["source" := clientSource]> {["reason" := VString "changed"]} |} ].
Proof.
  split; [reflexivity|]. split; [reflexivity|].
  apply (SessionModelProperties.memory_source_reported_with_one_handle
           session 1%nat 7%nat sourceRequest sourceChangedRequest "VM42"); reflexivity.
Defined.

Lemma sendBPStatusChanged_event_witness :
  heap session !! 2%nat = Some (IBPStatusChangedParameters.repr breakpointRequest) ∧
  ∃ w',
    sendBPStatusChanged 2%nat session = (Fulfilled (), w') ∧
    sent w' = sent session ++
      [{| event := VString "breakpoint";
          body := <["breakpoint" :=
                      VBreakpoint {| bp_verified := true; bp_message := "";
                                     bp_source := Some {| path := Some "/app/a.js";
                                                          sourceReference := None |};
                                     bp_line := Some 42; bp_column := Some 0 |}]>
                    {["reason" := VString "changed"]} |}].
Proof.
  split; [reflexivity|].
  apply (sendBPStatusChanged_event session 2%nat breakpointRequest _ (handles session));
    reflexivity.
Defined.

Lemma sendSourceWasLoaded_event_witness :
  heap session !! 1%nat = Some (ISourceWasLoadedParameters.repr sourceRequest) ∧
  ∃ w',
    sendSourceWasLoaded 1%nat session = (Fulfilled (), w') ∧
    sent w' = sent session ++
      [{| event := VString "loadedSource";
          body := <["source" := VSource {| path := None; sourceReference := Some 1000 |}]>
                    {["reason" := VString "new"]} |}].
Proof.
  split; [reflexivity|].
  apply (sendSourceWasLoaded_event session 1%nat sourceRequest _ registryWithVM42);
    reflexivity.
Defined.

Lemma operations_leave_the_request_unchanged_witness :
  heap session !! 0%nat = Some (IOutputParameters.repr outputRequest) ∧
  heap (invoke op_sendOutput 0%nat session).2 !! 0%nat = Some (IOutputParameters.repr outputRequest) ∧
  ∃ fresh, heap (invoke op_sendOutput 0%nat session).2 = heap session ++ fresh.
Proof.
  split; [reflexivity|].
  apply (operations_leave_the_request_unchanged op_sendOutput session 0%nat). reflexivity.
Defined.

End SessionExamples.

(** ** Calls seen from the caller *)

Section Calls.
Context `{Collaborators}.

(** What one call puts on the wire. *)
Lemma invoke_sends (op : Operation) (w : World) (p : addr) :
  (p < length (heap w))%nat →
  ∃ new, sent (invoke op p w).2 = sent w ++ new ∧
         event <$> new =
           if succeeded (invoke op p w).1 then [VString (eventKind op)] else [].
Proof.
  intros Hlt. destruct op; unfold invoke, callSync, callAsync.
  - rewrite (sendOutput_run w p Hlt). cbv zeta.
    destruct (truthy _); [|by eexists].
    destruct (clientLocation _ _) as [[[[s l] c]|x] r]; [by eexists|].
    exists []. by rewrite app_nil_r.
  - rewrite sendSourceWasLoaded_run. cbv zeta.
    destruct (toSource _ _) as [[c|x] r]; [by eexists|].
    exists []. by rewrite app_nil_r.
  - rewrite sendBPStatusChanged_run. cbv zeta.
    destruct (toBreakpoint _ _) as [[c|x] r]; [by eexists|].
    exists []. by rewrite app_nil_r.
  - rewrite sendExceptionThrown_run_output. cbv zeta.
    destruct (truthy _); [|by eexists].
    destruct (clientLocation _ _) as [[[[s l] c]|x] r]; [by eexists|].
    exists []. by rewrite app_nil_r.
  - rewrite sendDebuggeeIsStopped_run. by eexists.
Qed.

(** X1. A call sends an event exactly when it succeeds: whatever the
    request object holds, a call that returns normally (or whose promise is
    fulfilled) appends one event of the operation's kind to the wire, behind
    everything sent before, and a call that throws or rejects appends
    nothing. *)
Theorem one_event_exactly_when_the_call_succeeds (op : Operation) (w : World) (p : addr) :
  (p < length (heap w))%nat →
  if succeeded (invoke op p w).1
  then ∃ b, sent (invoke op p w).2 =
              sent w ++ [{| event := VString (eventKind op); body := b |}]
  else sent (invoke op p w).2 = sent w.
Proof.
  intros Hlt. destruct (invoke_sends op w p Hlt) as (new & Hsent & Hkinds).
  rewrite Hsent. destruct (succeeded _).
  - destruct new as [|[k b] [|? ?]]; simplify_eq/=. by exists b.
  - destruct new; simplify_eq/=. by rewrite app_nil_r.
Qed.

(** X2. Calls issued one after the other put their events on the wire in
    call order: after the whole sequence the wire holds what it held before
    followed by one event per call that succeeded, of that call's kind, and
    nothing for the calls that failed. *)
Theorem events_follow_the_order_of_the_calls (calls : list (Operation * addr)) (w : World) :
  Forall (λ c, (c.2 < length (heap w))%nat) calls →
  ∃ new, sent (invokeAll calls w).2 = sent w ++ new ∧
         event <$> new = kindsOfSuccessful calls (invokeAll calls w).1.
Proof.
  revert w. induction calls as [|[op p] calls IH]; intros w Hcalls.
  - exists []. by rewrite app_nil_r.
  - apply Forall_cons in Hcalls as [Hp Hcalls]. simpl in Hp.
    destruct (invoke_sends op w p Hp) as (new1 & Hsent1 & Hkinds1).
    destruct (invoke_extends_store op w p Hp) as [fresh Hfresh].
    simpl. destruct (invoke op p w) as [r w1] eqn:Hinvoke. simpl in *.
    assert (Hcalls1 : Forall (λ c, (c.2 < length (heap w1))%nat) calls).
    { eapply Forall_impl; [exact Hcalls|]. intros c Hc. simpl in Hc.
      rewrite Hfresh, length_app. lia. }
    destruct (IH w1 Hcalls1) as (new2 & Hsent2 & Hkinds2).
    destruct (invokeAll calls w1) as [rs w2]. simpl in *.
    exists (new1 ++ new2). split.
    + by rewrite Hsent2, Hsent1, app_assoc.
    + by rewrite fmap_app, Hkinds1, Hkinds2.
Qed.

(** Two calls of an operation on requests that agree on what it reads. *)
Lemma invoke_agree (op : Operation) (w1 w2 : World) (p1 p2 : addr) :
  (p1 < length (heap w1))%nat →
  (p2 < length (heap w2))%nat →
  handles w1 = handles w2 →
  Forall (λ f, field (heap w1) p1 f = field (heap w2) p2 f) (propertiesRead op) →
  (invoke op p1 w1).1 = (invoke op p2 w2).1 ∧
  handles (invoke op p1 w1).2 = handles (invoke op p2 w2).2 ∧
  ∃ new, sent (invoke op p1 w1).2 = sent w1 ++ new ∧
         sent (invoke op p2 w2).2 = sent w2 ++ new.
Proof.
  intros Hp1 Hp2 Hhandles Hfields.
  destruct op; simpl in Hfields; rewrite !Forall_cons in Hfields;
    unfold invoke, callSync, callAsync.
  - rewrite (sendOutput_run w1 p1 Hp1), (sendOutput_run w2 p2 Hp2). cbv zeta.
    destruct Hfields as (-> & -> & -> & -> & _).
    rewrite Hhandles.
    destruct (truthy _); [|by repeat split; eexists].
    destruct (clientLocation _ _) as [[[[s l] c]|x] r]; simpl.
    + by repeat split; eexists.
    + repeat split. exists []. by rewrite !app_nil_r.
  - rewrite !sendSourceWasLoaded_run. cbv zeta.
    destruct Hfields as (-> & -> & _).
    rewrite Hhandles.
    destruct (toSource _ _) as [[c|x] r]; simpl.
    + by repeat split; eexists.
    + repeat split. exists []. by rewrite !app_nil_r.
  - rewrite !sendBPStatusChanged_run. cbv zeta.
    destruct Hfields as (-> & -> & _).
    rewrite Hhandles.
    destruct (toBreakpoint _ _) as [[c|x] r]; simpl.
    + by repeat split; eexists.
    + repeat split. exists []. by rewrite !app_nil_r.
  - rewrite !sendExceptionThrown_run_output. cbv zeta.
    destruct Hfields as (-> & -> & -> & _).
    rewrite Hhandles.
    destruct (truthy _); [|by repeat split; eexists].
    destruct (clientLocation _ _) as [[[[s l] c]|x] r]; simpl.
    + by repeat split; eexists.
    + repeat split. exists []. by rewrite !app_nil_r.
  - rewrite !sendDebuggeeIsStopped_run. cbv zeta.
    destruct Hfields as (-> & -> & _).
    simpl. rewrite Hhandles. by repeat split; eexists.
Qed.

(** X3. A call depends on nothing but the properties of the request that
    the operation reads and the handle registry: run on two requests that
    agree on those properties, in worlds with the same registry (the stores
    and the wires may differ, the requests may hold other properties), an
    operation gives the caller the same result, leaves the same registry
    and sends the same events. *)
Theorem calls_depend_on_the_properties_read
    (op : Operation) (w1 w2 : World) (p1 p2 : addr) :
  (p1 < length (heap w1))%nat →
  (p2 < length (heap w2))%nat →
  handles w1 = handles w2 →
  Forall (λ f, field (heap w1) p1 f = field (heap w2) p2 f) (propertiesRead op) →
  (invoke op p1 w1).1 = (invoke op p2 w2).1 ∧
  handles (invoke op p1 w1).2 = handles (invoke op p2 w2).2 ∧
  ∃ new, sent (invoke op p1 w1).2 = sent w1 ++ new ∧
         sent (invoke op p2 w2).2 = sent w2 ++ new.
Proof. apply invoke_agree. Qed.

(** X6. Calls interfere only through the handle registry: when an earlier
    call left the registry as it was (for one, any report of a stopped
    debuggee or of output without a location), a later call on a request
    that was already there gives the same result, leaves the same registry
    and sends the same events as it would have without the earlier call. *)
Theorem calls_interfere_only_through_the_registry
    (op op' : Operation) (w : World) (p p' : addr) :
  (p < length (heap w))%nat →
  (p' < length (heap w))%nat →
  handles (invoke op' p' w).2 = handles w →
  (invoke op p (invoke op' p' w).2).1 = (invoke op p w).1 ∧
  handles (invoke op p (invoke op' p' w).2).2 = handles (invoke op p w).2 ∧
  ∃ new, sent (invoke op p (invoke op' p' w).2).2 = sent (invoke op' p' w).2 ++ new ∧
         sent (invoke op p w).2 = sent w ++ new.
Proof.
  intros Hp Hp' Hhandles.
  destruct (invoke_extends_store op' w p' Hp') as [fresh Hfresh].
  apply invoke_agree; [|done|done|].
  - rewrite Hfresh, length_app. lia.
  - apply Forall_forall. intros f _. rewrite Hfresh. by apply field_old.
Qed.

Lemma dom_outputBody (o c v : value) :
  dom (outputBody o c v) ⊆ outputProperties.
Proof.
  unfold outputBody, outputProperties.
  destruct (truthy v); rewrite ?dom_insert_L, dom_singleton_L;
    set_unfold; intros x; tauto.
Qed.

Lemma dom_withLocation (s : value) (l c : Z) (b : object) :
  dom b ⊆ outputProperties → dom (withLocation s l c b) ⊆ outputProperties.
Proof.
  intros Hb. unfold withLocation. rewrite !dom_insert_L.
  unfold outputProperties in *. set_unfold. intros x. specialize (Hb x). tauto.
Qed.

(** X4. Nothing of a request leaks into an Output event: whatever
    properties the request object holds, the body of an event sent by
    [sendOutput] or by [sendExceptionThrown] has no property other than
    output, category, variablesReference, source, line and column. *)
Theorem output_events_hold_output_properties_only (w : World) (p : addr) :
  (p < length (heap w))%nat →
  (∃ new, sent (sendOutput p w).2 = sent w ++ new ∧
          ∀ ev, ev ∈ new → dom (body ev) ⊆ outputProperties) ∧
  (∃ new, sent (sendExceptionThrown p w).2 = sent w ++ new ∧
          ∀ ev, ev ∈ new → dom (body ev) ⊆ outputProperties).
Proof.
  intros Hlt. split.
  - rewrite (sendOutput_run w p Hlt). cbv zeta.
    destruct (truthy _).
    + destruct (clientLocation _ _) as [[[[s l] c]|x] r]; simpl.
      * eexists. split; [done|]. intros ev ->%list_elem_of_singleton. simpl.
        apply dom_withLocation, dom_outputBody.
      * exists []. split; [by rewrite app_nil_r|]. by intros ev ?%elem_of_nil.
    + eexists. split; [done|]. intros ev ->%list_elem_of_singleton. simpl.
      apply dom_outputBody.
  - rewrite sendExceptionThrown_run_output. cbv zeta.
    destruct (truthy _).
    + destruct (clientLocation _ _) as [[[[s l] c]|x] r]; simpl.
      * eexists. split; [done|]. intros ev ->%list_elem_of_singleton. simpl.
        apply dom_withLocation, dom_outputBody.
      * exists []. split; [by rewrite app_nil_r|]. by intros ev ?%elem_of_nil.
    + eexists. split; [done|]. intros ev ->%list_elem_of_singleton. simpl.
      apply dom_outputBody.
Qed.

(** X5. A call runs its conversion once, and nothing else touches the
    handle registry: after a call, successful or not, the registry is the
    one left by a single run of the operation's converter on the request's
    property; reporting a stopped debuggee, or output or an exception
    without a location, leaves the registry as it was. *)
Theorem registry_after_one_conversion (op : Operation) (w : World) (p : addr) :
  (p < length (heap w))%nat →
  handles (invoke op p w).2 = registryAfter op (heap w) p (handles w).
Proof.
  intros Hlt. destruct op; unfold invoke, callSync, callAsync, registryAfter.
  - rewrite (sendOutput_run w p Hlt). cbv zeta.
    destruct (truthy _); [|done].
    by destruct (clientLocation _ _) as [[[[s l] c]|x] r].
  - rewrite sendSourceWasLoaded_run. cbv zeta.
    by destruct (toSource _ _) as [[c|x] r].
  - rewrite sendBPStatusChanged_run. cbv zeta.
    by destruct (toBreakpoint _ _) as [[c|x] r].
  - rewrite sendExceptionThrown_run_output. cbv zeta.
    destruct (truthy _); [|done].
    by destruct (clientLocation _ _) as [[[[s l] c]|x] r].
  - by rewrite sendDebuggeeIsStopped_run.
Qed.

(** X7. The reporter adds no failure of its own and hides none: whatever
    the request object holds, a call fails exactly when the operation's
    conversion fails, with the converter's reason (thrown by [sendOutput],
    as the rejection of the promise of the others); reporting a stopped
    debuggee, or output or an exception without a location, always
    succeeds. *)
Theorem calls_fail_only_as_their_conversion_fails (op : Operation) (w : World) (p : addr) :
  (p < length (heap w))%nat →
  (invoke op p w).1 = resultAfter op (heap w) p (handles w).
Proof.
  intros Hlt. destruct op; unfold invoke, callSync, callAsync, resultAfter.
  - rewrite (sendOutput_run w p Hlt). cbv zeta.
    destruct (truthy _); [|done].
    by destruct (clientLocation _ _) as [[[[s l] c]|x] r].
  - rewrite sendSourceWasLoaded_run. cbv zeta.
    by destruct (toSource _ _) as [[c|x] r].
  - rewrite sendBPStatusChanged_run. cbv zeta.
    by destruct (toBreakpoint _ _) as [[c|x] r].
  - rewrite sendExceptionThrown_run_output. cbv zeta.
    destruct (truthy _); [|done].
    by destruct (clientLocation _ _) as [[[[s l] c]|x] r].
  - by rewrite sendDebuggeeIsStopped_run.
Qed.

End Calls.

(** ** Calls on the session in progress *)

Module CallExamples.
Import SessionModel Examples.

Lemma one_event_exactly_when_the_call_succeeds_witness :
  (1 < length (heap session))%nat ∧
  if succeeded (invoke op_sendSourceWasLoaded 1%nat session).1
  then ∃ b, sent (invoke op_sendSourceWasLoaded 1%nat session).2 =
              sent session ++ [{| event := VString (eventKind op_sendSourceWasLoaded); body := b |}]
  else sent (invoke op_sendSourceWasLoaded 1%nat session).2 = sent session.
Proof.
  split; [simpl; lia|].
  apply (one_event_exactly_when_the_call_succeeds op_sendSourceWasLoaded session 1%nat).
  simpl; lia.
Defined.

Lemma events_follow_the_order_of_the_calls_witness :
  Forall (λ c, (c.2 < length (heap session))%nat) calls ∧
  ∃ new, sent (invokeAll calls session).2 = sent session ++ new ∧
         event <$> new = kindsOfSuccessful calls (invokeAll calls session).1.
Proof.
  assert (Hcalls : Forall (λ c, (c.2 < length (heap session))%nat) calls)
    by (repeat constructor; simpl; lia).
  split; [exact Hcalls|].
  exact (events_follow_the_order_of_the_calls calls session Hcalls).
Defined.

Lemma calls_depend_on_the_properties_read_witness :
  (0 < length (heap session))%nat ∧
  (0 < length (heap laterSession))%nat ∧
  handles session = handles laterSession ∧
  Forall (λ f, field (heap session) 0%nat f = field (heap laterSession) 0%nat f)
    (propertiesRead op_sendOutput) ∧
  (invoke op_sendOutput 0%nat session).1 = (invoke op_sendOutput 0%nat laterSession).1 ∧
  handles (invoke op_sendOutput 0%nat session).2 =
    handles (invoke op_sendOutput 0%nat laterSession).2 ∧
  ∃ new, sent (invoke op_sendOutput 0%nat session).2 = sent session ++ new ∧
         sent (invoke op_sendOutput 0%nat laterSession).2 = sent laterSession ++ new.
Proof.
  assert (H1 : (0 < length (heap session))%nat) by (simpl; lia).
  assert (H2 : (0 < length (heap laterSession))%nat) by (simpl; lia).
  assert (H3 : handles session = handles laterSession) by reflexivity.
  assert (H4 : Forall (λ f, field (heap session) 0%nat f = field (heap laterSession) 0%nat f)
                 (propertiesRead op_sendOutput))
    by (repeat constructor).
  split; [exact H1|]. split; [exact H2|]. split; [exact H3|]. split; [exact H4|].
  exact (calls_depend_on_the_properties_read op_sendOutput session laterSession
           0%nat 0%nat H1 H2 H3 H4).
Defined.

Lemma calls_interfere_only_through_the_registry_witness :
  (0 < length (heap session))%nat ∧
  (4 < length (heap session))%nat ∧
  handles (invoke op_sendDebuggeeIsStopped 4%nat session).2 = handles session ∧
  (invoke op_sendOutput 0%nat (invoke op_sendDebuggeeIsStopped 4%nat session).2).1 =
    (invoke op_sendOutput 0%nat session).1 ∧
  handles (invoke op_sendOutput 0%nat (invoke op_sendDebuggeeIsStopped 4%nat session).2).2 =
    handles (invoke op_sendOutput 0%nat session).2 ∧
  ∃ new,
    sent (invoke op_sendOutput 0%nat (invoke op_sendDebuggeeIsStopped 4%nat session).2).2 =
      sent (invoke op_sendDebuggeeIsStopped 4%nat session).2 ++ new ∧
    sent (invoke op_sendOutput 0%nat session).2 = sent session ++ new.
Proof.
  assert (H1 : (0 < length (heap session))%nat) by (simpl; lia).
  assert (H2 : (4 < length (heap session))%nat) by (simpl; lia).
  assert (H3 : handles (invoke op_sendDebuggeeIsStopped 4%nat session).2 = handles session)
    by reflexivity.
  split; [exact H1|]. split; [exact H2|]. split; [exact H3|].
  exact (calls_interfere_only_through_the_registry op_sendOutput op_sendDebuggeeIsStopped
           session 0%nat 4%nat H1 H2 H3).
Defined.

Lemma output_events_hold_output_properties_only_witness :
  (0 < length (heap session))%nat ∧
  (∃ new, sent (sendOutput 0%nat session).2 = sent session ++ new ∧
          ∀ ev, ev ∈ new → dom (body ev) ⊆ outputProperties) ∧
  (∃ new, sent (sendExceptionThrown 0%nat session).2 = sent session ++ new ∧
          ∀ ev, ev ∈ new → dom (body ev) ⊆ outputProperties).
Proof.
  assert (H1 : (0 < length (heap session))%nat) by (simpl; lia).
  split; [exact H1|].
  exact (output_events_hold_output_properties_only session 0%nat H1).
Defined.

Lemma registry_after_one_conversion_witness :
  (0 < length (heap session))%nat ∧
  handles (invoke op_sendOutput 0%nat session).2 =
    registryAfter op_sendOutput (heap session) 0%nat (handles session).
Proof.
  assert (H1 : (0 < length (heap session))%nat) by (simpl; lia).
  split; [exact H1|].
  exact (registry_after_one_conversion op_sendOutput session 0%nat H1).
Defined.

Lemma calls_fail_only_as_their_conversion_fails_witness :
  (10 < length (heap session))%nat ∧
  (invoke op_sendBPStatusChanged 10%nat session).1 =
    resultAfter op_sendBPStatusChanged (heap session) 10%nat (handles session).
Proof.
  assert (H1 : (10 < length (heap session))%nat) by (simpl; lia).
  split; [exact H1|].
  exact (calls_fail_only_as_their_conversion_fails op_sendBPStatusChanged session 10%nat H1).
Defined.

End CallExamples.
